(** * jupyter_events: the EventLogger of [jupyter_events/logger.py]

    A shallow embedding of [EventLogger] (registration delegation, sink
    management and [emit]) together with the parts of Python's [datetime],
    [logging] and [pythonjsonlogger] that [emit] drives. *)

From Stdlib Require Import ZArith NArith String Ascii List.
From stdpp Require Import base gmap strings list fin_maps.

Open Scope string_scope.

(** ** JSON values

    Events, schema literals and capsules are Python dicts holding JSON data.
    Floating-point numbers are not represented. *)

#[warnings="-register-all"]
Inductive json :=
  | JNull
  | JBool (b : bool)
  | JInt (z : Z)
  | JStr (s : string)
  | JArr (l : list json)
  | JObj (l : list (string * json)).

Fixpoint json_eqb (x y : json) {struct x} : bool :=
  match x, y with
  | JNull, JNull => true
  | JBool a, JBool b => Bool.eqb a b
  | JInt a, JInt b => Z.eqb a b
  | JStr a, JStr b => String.eqb a b
  | JArr a, JArr b =>
      (fix go (a b : list json) {struct a} : bool :=
         match a, b with
         | [], [] => true
         | u :: a', v :: b' => json_eqb u v && go a' b'
         | _, _ => false
         end) a b
  | JObj a, JObj b =>
      (fix go (a b : list (string * json)) {struct a} : bool :=
         match a, b with
         | [], [] => true
         | (k, u) :: a', (k', v) :: b' =>
             String.eqb k k' && json_eqb u v && go a' b'
         | _, _ => false
         end) a b
  | _, _ => false
  end.

(** A Python dict with string keys. *)
Abbreviation dict := (gmap string json).

(** ** [datetime] and [datetime.isoformat]

    A [datetime] object: calendar fields and an optional UTC offset
    ([tzinfo]), kept in microseconds as Python's [timedelta] does.  Python's
    constructor bounds the fields ([1 <= year <= 9999], [month <= 12], ...,
    [microsecond < 1000000], [|utcoffset| < 24h]), so that the [%04d], [%02d]
    and [%06d] conversions below print exactly 4, 2 and 6 digits. *)

Record datetime := {
  year : N;
  month : N;
  day : N;
  hour : N;
  minute : N;
  second : N;
  microsecond : N;
  utcoffset : option Z
}.

Definition digit (n : N) : ascii := ascii_of_N (48 + n mod 10)%N.

(** [zpad w n] is ["%0wd" % n] for [n < 10^w]. *)
Fixpoint zpad (w : nat) (n : N) : string :=
  match w with
  | O => ""
  | S w' => zpad w' (n / 10)%N ++ String (digit n) ""
  end.

(** [_format_time(hh, mm, ss, us, timespec='auto')]. *)
Definition _format_time (hh mm ss us : N) : string :=
  zpad 2 hh ++ ":" ++ zpad 2 mm ++ ":" ++ zpad 2 ss ++
  (if (us =? 0)%N then "" else "." ++ zpad 6 us).

(** [_format_offset(off)]: [+HH:MM], with [:SS] and [.ffffff] only when
    they are not zero. *)
Definition _format_offset (off : option Z) : string :=
  match off with
  | None => ""
  | Some off =>
      let sign := if (off <? 0)%Z then "-" else "+" in
      let a := Z.abs_N off in
      let hh := (a / 3600000000)%N in
      let r := (a mod 3600000000)%N in
      let mm := (r / 60000000)%N in
      let r' := (r mod 60000000)%N in
      let ss := (r' / 1000000)%N in
      let us := (r' mod 1000000)%N in
      sign ++ zpad 2 hh ++ ":" ++ zpad 2 mm ++
      (if (r' =? 0)%N then ""
       else ":" ++ zpad 2 ss ++
            (if (us =? 0)%N then "" else "." ++ zpad 6 us))
  end.

(** [datetime.isoformat()] with the default separator ['T']. *)
Definition isoformat (d : datetime) : string :=
  zpad 4 (year d) ++ "-" ++ zpad 2 (month d) ++ "-" ++ zpad 2 (day d) ++ "T" ++
  _format_time (hour d) (minute d) (second d) (microsecond d) ++
  _format_offset (utcoffset d).

(** [dt.replace(tzinfo=None)]: the same wall-clock fields, no offset. *)
Definition naive (d : datetime) : datetime :=
  {| year := year d; month := month d; day := day d; hour := hour d;
     minute := minute d; second := second d; microsecond := microsecond d;
     utcoffset := None |}.

(** ** Schemas

    [Schema] and [SchemaRegistry] belong to [schema_registry.py]; they are
    defined here after the data model (§3) and the component design (§4.1,
    §4.2) of the specification. *)

Inductive json_type :=
  TString | TInteger | TNumber | TBoolean | TNull | TArray | TObject.

Inductive PropertyType :=
  | PType (t : json_type)
  | PEnum (allowed : list json).

(** Modelled from the spec: PropertySpec, a property's [type] (primitive type
    tag or [enum] of literals) and its [redactionPolicies] ([None]: inherit
    the schema-level ones); [prop_default] and [prop_optional] are the marks
    that decide whether the property is required. *)
Record PropertySpec := {
  prop_type : PropertyType;
  prop_redactionPolicies : option (list string);
  prop_default : option json;
  prop_optional : bool
}.

(** Modelled from the spec: Schema, one registered event type. *)
Record Schema := {
  schema_id : string;
  schema_version : Z;
  schema_title : option string;
  schemaRedactionPolicies : list string;
  properties : list (string * PropertySpec)
}.

(** Names under the prefix [__] are reserved for capsule metadata. *)
Definition reserved (name : string) : bool := String.prefix "__" name.

Fixpoint lookup_property (name : string) (ps : list (string * PropertySpec))
  : option PropertySpec :=
  match ps with
  | [] => None
  | (n, p) :: ps' => if String.eqb n name then Some p else lookup_property name ps'
  end.

Definition type_matches (t : json_type) (v : json) : bool :=
  match t, v with
  | TString, JStr _ => true
  | TInteger, JInt _ => true
  | TNumber, JInt _ => true
  | TBoolean, JBool _ => true
  | TNull, JNull => true
  | TArray, JArr _ => true
  | TObject, JObj _ => true
  | _, _ => false
  end.

Definition value_matches (p : PropertySpec) (v : json) : bool :=
  match prop_type p with
  | PType t => type_matches t v
  | PEnum allowed => existsb (json_eqb v) allowed
  end.

Definition required (p : PropertySpec) : bool :=
  match prop_default p with
  | None => negb (prop_optional p)
  | Some _ => false
  end.

Inductive EventValidationError :=
  | MissingProperty (name : string)
  | InvalidValue (name : string)
  | ReservedKey (name : string).

Fixpoint check_required (ps : list (string * PropertySpec)) (event : dict)
  : option EventValidationError :=
  match ps with
  | [] => None
  | (n, p) :: ps' =>
      match event !! n with
      | None => if required p then Some (MissingProperty n)
                else check_required ps' event
      | Some _ => check_required ps' event
      end
  end.

Fixpoint check_values (ps : list (string * PropertySpec)) (event : dict)
  : option EventValidationError :=
  match ps with
  | [] => None
  | (n, p) :: ps' =>
      match event !! n with
      | Some v => if value_matches p v then check_values ps' event
                  else Some (InvalidValue n)
      | None => check_values ps' event
      end
  end.

(** A key of the event that is reserved and is no property of the schema. *)
Definition unknown_reserved (s : Schema) (name : string) : bool :=
  reserved name &&
  match lookup_property name (properties s) with None => true | Some _ => false end.

Definition check_reserved (s : Schema) (event : dict)
  : option EventValidationError :=
  match List.filter (unknown_reserved s) (map fst (map_to_list event)) with
  | [] => None
  | n :: _ => Some (ReservedKey n)
  end.

(** Modelled from the spec: [Schema.validate(event)], the structural check of
    §4.2: required properties, then the values of the present ones, then
    reserved keys; the first violation is the error ([None]: the event
    conforms).  The event is not changed. *)
Definition validate (s : Schema) (event : dict) : option EventValidationError :=
  match check_required (properties s) event with
  | Some e => Some e
  | None =>
      match check_values (properties s) event with
      | Some e => Some e
      | None => check_reserved s event
      end
  end.

(** A property's own policies, or the schema-level ones. *)
Definition effective_policies (s : Schema) (name : string) : list string :=
  match lookup_property name (properties s) with
  | Some p =>
      match prop_redactionPolicies p with
      | Some ps => ps
      | None => schemaRedactionPolicies s
      end
  | None => schemaRedactionPolicies s
  end.

Definition mem_string (x : string) (l : list string) : bool :=
  existsb (String.eqb x) l.

Definition retained (s : Schema) (allowedPolicies : list string) (name : string)
  : bool :=
  mem_string "all" allowedPolicies ||
  existsb (fun p => mem_string p allowedPolicies) (effective_policies s name).

(** Modelled from the spec: [Schema.enforce_redaction_policies(event,
    allowedPolicies)] of §4.2; the result is the event after the in-place
    removal of the properties that are not retained. *)
Definition enforce_redaction_policies
  (s : Schema) (allowedPolicies : list string) (event : dict) : dict :=
  filter (fun kv => retained s allowedPolicies kv.1 = true) event.

(** ** The schema registry *)

(** A raw schema definition document, as handed to [register]. *)
Record PropertyDefinition := {
  pd_type : option PropertyType;
  pd_redactionPolicies : option (list json);
  pd_default : option json;
  pd_optional : bool
}.

Record SchemaDefinition := {
  sd_id : option json;
  sd_version : option json;
  sd_title : option string;
  sd_redactionPolicies : option (list json);
  sd_properties : list (string * PropertyDefinition)
}.

Inductive RegistryError :=
  | SchemaDefinitionError (path : string)
  | DuplicateSchemaError (id : string) (version : Z).

(** A redaction-policy list must be an array of strings. *)
Fixpoint policy_strings (l : list json) : option (list string) :=
  match l with
  | [] => Some []
  | JStr s :: l' =>
      match policy_strings l' with
      | Some r => Some (s :: r)
      | None => None
      end
  | _ :: _ => None
  end.

Definition compile_property (name : string) (d : PropertyDefinition)
  : RegistryError + PropertySpec :=
  if reserved name then inl (SchemaDefinitionError ("properties." ++ name))
  else
    match pd_type d with
    | None => inl (SchemaDefinitionError ("properties." ++ name ++ ".type"))
    | Some t =>
        match pd_redactionPolicies d with
        | None =>
            inr {| prop_type := t; prop_redactionPolicies := None;
                   prop_default := pd_default d; prop_optional := pd_optional d |}
        | Some l =>
            match policy_strings l with
            | None =>
                inl (SchemaDefinitionError
                       ("properties." ++ name ++ ".redactionPolicies"))
            | Some ps =>
                inr {| prop_type := t; prop_redactionPolicies := Some ps;
                       prop_default := pd_default d;
                       prop_optional := pd_optional d |}
            end
        end
    end.

Fixpoint compile_properties (l : list (string * PropertyDefinition))
  : RegistryError + list (string * PropertySpec) :=
  match l with
  | [] => inr []
  | (n, d) :: l' =>
      match compile_property n d with
      | inl e => inl e
      | inr p =>
          match compile_properties l' with
          | inl e => inl e
          | inr ps => inr ((n, p) :: ps)
          end
      end
  end.

(** The meta-schema check of §4.1 and the compilation into a [Schema]. *)
Definition compile_definition (d : SchemaDefinition) : RegistryError + Schema :=
  match sd_id d, sd_version d with
  | Some (JStr id), Some (JInt v) =>
      match compile_properties (sd_properties d) with
      | inl e => inl e
      | inr ps =>
          match policy_strings (default [] (sd_redactionPolicies d)) with
          | None => inl (SchemaDefinitionError "redactionPolicies")
          | Some pol =>
              inr {| schema_id := id; schema_version := v;
                     schema_title := sd_title d;
                     schemaRedactionPolicies := pol; properties := ps |}
          end
      end
  | Some (JStr _), _ => inl (SchemaDefinitionError "version")
  | _, _ => inl (SchemaDefinitionError "id")
  end.

(** Modelled from the spec: SchemaRegistry, the mapping from (id, version) to
    [Schema]; [reg_allowed_policies] is the [allowed_policies] argument of
    its constructor. *)
Record SchemaRegistry := {
  reg_allowed_policies : list string;
  schemas : gmap (string * Z) Schema
}.

Definition SchemaRegistry_init (allowed_policies : list string) : SchemaRegistry :=
  {| reg_allowed_policies := allowed_policies; schemas := ∅ |}.

(** Modelled from the spec: [contains], the membership test behind
    [key in registry]. *)
Definition contains (r : SchemaRegistry) (key : string * Z) : bool :=
  match schemas r !! key with Some _ => true | None => false end.

(** Modelled from the spec: [get]; [None] is the lookup failure. *)
Definition get (r : SchemaRegistry) (key : string * Z) : option Schema :=
  schemas r !! key.

(** Modelled from the spec: [register(definition)]. *)
Definition register (r : SchemaRegistry) (d : SchemaDefinition)
  : RegistryError + SchemaRegistry :=
  match compile_definition d with
  | inl e => inl e
  | inr s =>
      let key := (schema_id s, schema_version s) in
      if contains r key then inl (DuplicateSchemaError (schema_id s) (schema_version s))
      else inr {| reg_allowed_policies := reg_allowed_policies r;
                  schemas := <[key := s]> (schemas r) |}
  end.

(** The registry invariant of §3: no stored schema has a property under the
    reserved prefix. *)
Definition schema_ok (s : Schema) : Prop :=
  Forall (fun np => reserved np.1 = false) (properties s).

Definition registry_ok (r : SchemaRegistry) : Prop :=
  forall key s, schemas r !! key = Some s -> schema_ok s.

(** ** [logging] handlers and the JSON formatter

    Handler objects are shared, mutable Python objects: they live in a store
    and are named by their identity. *)

Definition handler_id := nat.

Inductive Formatter :=
  | PlainFormatter                (* the formatter of [logging] itself *)
  | JsonFormatter_skip_message.   (* [JsonFormatter(json_serializer=_skip_message)] *)

(** What a handler writes for one record: the text [str(msg)] of the plain
    formatter, or the text [json.dumps(obj)]. *)
Inductive Output :=
  | PlainText (msg : dict)
  | JsonText (obj : dict).

Record Handler := {
  formatter : Formatter;
  stream : list Output
}.

Definition new_handler : Handler :=
  {| formatter := PlainFormatter; stream := [] |}.

(** [_skip_message(record)]: [del record["message"]] (a [KeyError], here
    [None], when the key is absent), then [json.dumps(record)]. *)
Definition _skip_message (record : dict) : option Output :=
  match record !! "message" with
  | Some _ => Some (JsonText (delete "message" record))
  | None => None
  end.

(** [JsonFormatter.format] on a record whose [msg] is a dict: the log record
    starts as [{"message": None}], is updated with [msg], and goes to the
    serializer. *)
Definition JsonFormatter_format (msg : dict) : option Output :=
  _skip_message (msg ∪ {[ "message" := JNull ]}).

Definition format (f : Formatter) (msg : dict) : option Output :=
  match f with
  | PlainFormatter => Some (PlainText msg)
  | JsonFormatter_skip_message => JsonFormatter_format msg
  end.

(** [Handler.handle(record)]: the formatted record is written; a failing
    formatter is swallowed by [handleError] and nothing is written. *)
Definition handle (h : Handler) (msg : dict) : Handler :=
  match format (formatter h) msg with
  | Some out => {| formatter := formatter h; stream := (stream h ++ [out])%list |}
  | None => h
  end.

(** The Python side of the world: the handler objects, and the handlers of
    the loggers that [logging.getLogger] keeps by name.  An [EventLogger]
    names its logger after [id(self)]; the name is kept as that number. *)
Record World := {
  handler_objects : gmap handler_id Handler;
  loggers : gmap nat (list handler_id)
}.

Definition get_handler (w : World) (h : handler_id) : Handler :=
  default new_handler (handler_objects w !! h).

Definition logger_handlers (w : World) (name : nat) : list handler_id :=
  default [] (loggers w !! name).

(** [logging.getLogger(name)]: the logger of that name, created when new. *)
Definition getLogger (w : World) (name : nat) : World :=
  match loggers w !! name with
  | Some _ => w
  | None => {| handler_objects := handler_objects w;
               loggers := <[name := []]> (loggers w) |}
  end.

(** [handler.setFormatter(fmt)]. *)
Definition setFormatter (w : World) (h : handler_id) (f : Formatter) : World :=
  {| handler_objects :=
       <[h := {| formatter := f; stream := stream (get_handler w h) |}]>
         (handler_objects w);
     loggers := loggers w |}.

Definition mem_handler (h : handler_id) (l : list handler_id) : bool :=
  existsb (Nat.eqb h) l.

(** [list.remove(x)]: the first occurrence goes. *)
Fixpoint list_remove (h : handler_id) (l : list handler_id) : list handler_id :=
  match l with
  | [] => []
  | x :: l' => if Nat.eqb h x then l' else x :: list_remove h l'
  end.

(** [Logger.addHandler(hdlr)]: appended unless already there. *)
Definition addHandler (w : World) (name : nat) (h : handler_id) : World :=
  let hs := logger_handlers w name in
  if mem_handler h hs then w
  else {| handler_objects := handler_objects w;
          loggers := <[name := (hs ++ [h])%list]> (loggers w) |}.

(** [Logger.removeHandler(hdlr)]. *)
Definition removeHandler (w : World) (name : nat) (h : handler_id) : World :=
  let hs := logger_handlers w name in
  if mem_handler h hs
  then {| handler_objects := handler_objects w;
          loggers := <[name := list_remove h hs]> (loggers w) |}
  else w.

Definition deliver (msg : dict) (objs : gmap handler_id Handler) (h : handler_id)
  : gmap handler_id Handler :=
  <[h := handle (default new_handler (objs !! h)) msg]> objs.

(** [Logger.info(msg)] on a logger at level INFO that does not propagate:
    one record, handed to each handler of the logger in turn. *)
Definition info (w : World) (name : nat) (msg : dict) : World :=
  {| handler_objects :=
       foldl (deliver msg) (handler_objects w) (logger_handlers w name);
     loggers := loggers w |}.

(** ** EventLogger *)

(** Modelled from the spec: [EVENTS_METADATA_VERSION], the fixed integer of
    the capsule format, declared in the package's [__init__.py]; the capsule
    of §8 carries [__metadata_version__ = 1]. *)
Definition EVENTS_METADATA_VERSION : Z := 1.

(** The traits of an instance.  [self.log] is the logger that
    [logging.getLogger] keeps under the name built from [id(self)]; the
    sink list [handlers] is a list (the trait also admits [None], on which
    [emit] and [__init__] behave as on the empty list). *)
Record EventLogger := {
  self_id : nat;
  handlers : list handler_id;
  allowed_policies : list string;
  schema_registry : SchemaRegistry
}.

(** [_default_schema_registry]. *)
Definition _default_schema_registry (allowed_policies : list string)
  : SchemaRegistry :=
  SchemaRegistry_init allowed_policies.

(** [add_handler(handler)]. *)
Definition add_handler (w : World) (el : EventLogger) (handler : handler_id)
  : World * EventLogger :=
  let w1 := setFormatter w handler JsonFormatter_skip_message in
  let w2 := addHandler w1 (self_id el) handler in
  if mem_handler handler (handlers el) then (w2, el)
  else (w2, {| self_id := self_id el;
               handlers := (handlers el ++ [handler])%list;
               allowed_policies := allowed_policies el;
               schema_registry := schema_registry el |}).

(** [remove_handler(handler)]. *)
Definition remove_handler (w : World) (el : EventLogger) (handler : handler_id)
  : World * EventLogger :=
  let w1 := removeHandler w (self_id el) handler in
  if mem_handler handler (handlers el)
  then (w1, {| self_id := self_id el;
               handlers := list_remove handler (handlers el);
               allowed_policies := allowed_policies el;
               schema_registry := schema_registry el |})
  else (w1, el).

(** [EventLogger(handlers=..., allowed_policies=...)]: an absent keyword
    takes the trait's default value.  The logger is fetched by name, set not
    to propagate and put at level INFO, which is what [info] relies on; then
    every configured handler goes through [add_handler]. *)
Definition EventLogger_init (w : World) (id : nat)
  (handlers_kw : option (list handler_id))
  (allowed_policies_kw : option (list string)) : World * EventLogger :=
  let allowed := default ["all"] allowed_policies_kw in
  let el := {| self_id := id;
               handlers := default [] handlers_kw;
               allowed_policies := allowed;
               schema_registry := _default_schema_registry allowed |} in
  foldl (fun s handler => add_handler s.1 s.2 handler)
        (getLogger w id, el) (handlers el).

(** [register_schema(schema)]. *)
Definition register_schema (el : EventLogger) (schema : SchemaDefinition)
  : RegistryError + EventLogger :=
  match register (schema_registry el) schema with
  | inl e => inl e
  | inr r => inr {| self_id := self_id el; handlers := handlers el;
                    allowed_policies := allowed_policies el;
                    schema_registry := r |}
  end.

Inductive Exception :=
  | ValidationError (e : EventValidationError)
  | LookupError (key : string * Z).

(** How a call of [emit] ends: it returns ([None] for the bare [return]) or
    raises. *)
Inductive Outcome :=
  | Returns (capsule : option dict)
  | Raises (e : Exception).

Definition is_empty (l : list handler_id) : bool :=
  match l with [] => true | _ => false end.

(** The capsule before the event is merged in. *)
Definition empty_capsule (timestamp : datetime) (schema_name : string)
  (version : Z) : dict :=
  <["__metadata_version__" := JInt EVENTS_METADATA_VERSION]>
    (<["__schema_version__" := JInt version]>
       (<["__schema__" := JStr schema_name]>
          (<["__timestamp__" := JStr (isoformat timestamp ++ "Z")]> ∅))).

(** [emit(schema_name, version, event, timestamp_override=None)].  [utcnow]
    is what [datetime.utcnow()] returns at the call.  The result is the world
    after the call, the caller's event dict after the call (redaction works
    in place) and the outcome.  The source calls
    [schema.enforce_redaction_policies(event)] with the event alone: the
    allowed policies are those the registry was built with. *)
Definition emit (w : World) (el : EventLogger) (schema_name : string)
  (version : Z) (event : dict) (timestamp_override : option datetime)
  (utcnow : datetime) : World * dict * Outcome :=
  if is_empty (handlers el)
     || negb (contains (schema_registry el) (schema_name, version))
  then (w, event, Returns None)
  else
    let timestamp :=
      match timestamp_override with
      | None => utcnow
      | Some t => t
      end in
    let capsule := empty_capsule timestamp schema_name version in
    match get (schema_registry el) (schema_name, version) with
    | None => (w, event, Raises (LookupError (schema_name, version)))
    | Some schema =>
        match validate schema event with
        | Some e => (w, event, Raises (ValidationError e))
        | None =>
            let event' :=
              enforce_redaction_policies
                schema (reg_allowed_policies (schema_registry el)) event in
            let capsule' := event' ∪ capsule in
            (info w (self_id el) capsule', event', Returns (Some capsule'))
        end
    end.


(** The world in which no handler and no logger exists yet. *)
Definition empty_world : World := {| handler_objects := ∅; loggers := ∅ |}.

(** What [logging] maintains: no logger holds a handler twice. *)
Definition world_ok (w : World) : Prop :=
  forall name hs, loggers w !! name = Some hs -> NoDup hs.

(** The sink list of an instance and the handlers of its logger hold the
    same handlers. *)
Definition in_sync (w : World) (el : EventLogger) : Prop :=
  forall h, h ∈ handlers el <-> h ∈ logger_handlers w (self_id el).

(** ** The schema and the event of §8 *)

Definition test_definition : SchemaDefinition :=
  {| sd_id := Some (JStr "test/test");
     sd_version := Some (JInt 1);
     sd_title := None;
     sd_redactionPolicies := Some [JStr "unrestricted"];
     sd_properties :=
       [("something",
         {| pd_type := Some (PType TString);
            pd_redactionPolicies := Some [JStr "unrestricted"];
            pd_default := None;
            pd_optional := false |})] |}.

Definition test_schema : Schema :=
  {| schema_id := "test/test";
     schema_version := 1;
     schema_title := None;
     schemaRedactionPolicies := ["unrestricted"];
     properties :=
       [("something",
         {| prop_type := PType TString;
            prop_redactionPolicies := Some ["unrestricted"];
            prop_default := None;
            prop_optional := false |})] |}.

Definition test_event : dict := {[ "something" := JStr "blah" ]}.

(** The capsule of §8 without its [__timestamp__]. *)
Definition test_capsule : dict :=
  <["something" := JStr "blah"]>
    (<["__metadata_version__" := JInt 1]>
       (<["__schema_version__" := JInt 1]>
          (<["__schema__" := JStr "test/test"]> ∅))).

(** An instance with one sink and the schema of §8 registered, in the world
    its construction leaves. *)
Definition test_world : World :=
  (EventLogger_init empty_world 0 (Some [3]) None).1.

Definition test_logger : EventLogger :=
  match register_schema
          (EventLogger_init empty_world 0 (Some [3]) None).2 test_definition
  with
  | inr el => el
  | inl _ => (EventLogger_init empty_world 0 (Some [3]) None).2
  end.

(** 9 March 2022, 14:05:07.001234, without offset and at UTC+05:30. *)
Definition sample_utcnow : datetime :=
  {| year := 2022; month := 3; day := 9; hour := 14; minute := 5;
     second := 7; microsecond := 1234; utcoffset := None |}.

Definition sample_override : datetime :=
  {| year := 2022; month := 3; day := 9; hour := 14; minute := 5;
     second := 7; microsecond := 1234; utcoffset := Some 19800000000%Z |}.

(** An event that the schema of §8 rejects. *)
Definition bad_event : dict := {[ "something" := JInt 5 ]}.

(** The capsule of [test_event] stamped with [sample_override]. *)
Definition sample_capsule : dict :=
  test_event ∪ empty_capsule sample_override "test/test" 1.

(** Two instances, each constructed with a sink of its own. *)
Definition two_loggers : World * EventLogger * EventLogger :=
  let s0 := EventLogger_init empty_world 0 (Some [3]) None in
  let s1 := EventLogger_init s0.1 1 (Some [4]) None in
  (s1.1, s0.2, s1.2).

(** An instance without sinks that has the schema of §8 registered. *)
Definition unconfigured_logger : EventLogger :=
  match register_schema
          (EventLogger_init empty_world 0 None None).2 test_definition
  with
  | inr el => el
  | inl _ => (EventLogger_init empty_world 0 None None).2
  end.

(** The sink bookkeeping of an instance is sound when no logger holds a
    handler twice, the sink list holds no handler twice, and the sink list
    and the handlers of the instance's logger are in step. *)
Definition sinks_invariant (w : World) (el : EventLogger) : Prop :=
  world_ok w /\ NoDup (handlers el) /\ in_sync w el.

(** An instance constructed with the same handler listed twice. *)
Definition duplicate_sinks : World * EventLogger :=
  EventLogger_init empty_world 0 (Some [5; 5]) None.

(** * Properties *)

(** ** [isoformat] on two dates *)

Example isoformat_naive :
  isoformat {| year := 2022; month := 3; day := 9; hour := 14; minute := 5;
               second := 7; microsecond := 1234; utcoffset := None |}
  = "2022-03-09T14:05:07.001234".
Proof. reflexivity. Qed.

Example isoformat_aware :
  isoformat {| year := 2022; month := 3; day := 9; hour := 14; minute := 5;
               second := 0; microsecond := 0;
               utcoffset := Some (-19800000000)%Z |}
  = "2022-03-09T14:05:00-05:30".
Proof. vm_compute. reflexivity. Qed.

(** ** Membership and removal on handler lists *)

Lemma mem_handler_elem_of (h : handler_id) (l : list handler_id) :
  mem_handler h l = true <-> h ∈ l.
Proof.
  unfold mem_handler. rewrite existsb_exists, list_elem_of_In. split.
  - intros (x & Hx & Heq). apply Nat.eqb_eq in Heq. now subst.
  - intros Hin. exists h. split; [assumption | apply Nat.eqb_refl].
Qed.

Lemma mem_handler_not_elem_of (h : handler_id) (l : list handler_id) :
  mem_handler h l = false <-> h ∉ l.
Proof.
  rewrite <- mem_handler_elem_of. destruct (mem_handler h l); split; congruence.
Qed.

Lemma list_remove_absent (h : handler_id) (l : list handler_id) :
  h ∉ l -> list_remove h l = l.
Proof.
  induction l as [|x l IH]; simpl; intros Hn; [reflexivity|].
  apply not_elem_of_cons in Hn as [Hne Hn].
  destruct (Nat.eqb_spec h x) as [->|_]; [congruence|].
  f_equal. now apply IH.
Qed.

Lemma elem_of_list_remove (h x : handler_id) (l : list handler_id) :
  x ∈ list_remove h l -> x ∈ l.
Proof.
  induction l as [|y l IH]; simpl; [tauto|].
  destruct (Nat.eqb h y); rewrite ?elem_of_cons; intuition.
Qed.

Lemma NoDup_list_remove (h : handler_id) (l : list handler_id) :
  NoDup l -> NoDup (list_remove h l) /\ h ∉ list_remove h l.
Proof.
  induction 1 as [|x l Hx Hl IH]; simpl.
  - split; [constructor | apply not_elem_of_nil].
  - destruct (Nat.eqb_spec h x) as [->|Hne].
    + split; assumption.
    + destruct IH as [IH1 IH2]. split.
      * constructor; [|assumption]. intros Hin. apply Hx.
        eapply elem_of_list_remove; eassumption.
      * apply not_elem_of_cons. split; assumption.
Qed.

(** ** What [info] does to the handler objects *)

Lemma deliver_other (msg : dict) (l : list handler_id)
  (objs : gmap handler_id Handler) (h : handler_id) :
  h ∉ l -> foldl (deliver msg) objs l !! h = objs !! h.
Proof.
  revert objs. induction l as [|x l IH]; intros objs Hn; simpl; [reflexivity|].
  apply not_elem_of_cons in Hn as [Hne Hn].
  rewrite IH by assumption.
  unfold deliver. apply lookup_insert_ne. congruence.
Qed.

Lemma deliver_once (msg : dict) (l : list handler_id)
  (objs : gmap handler_id Handler) (h : handler_id) :
  NoDup l -> h ∈ l ->
  foldl (deliver msg) objs l !! h
  = Some (handle (default new_handler (objs !! h)) msg).
Proof.
  intros Hnd. revert objs. induction Hnd as [|x l Hx Hl IH]; intros objs Hin.
  - now apply elem_of_nil in Hin.
  - simpl. apply elem_of_cons in Hin as [->|Hin].
    + rewrite deliver_other by assumption. unfold deliver.
      apply lookup_insert_eq.
    + rewrite IH by assumption. unfold deliver.
      rewrite lookup_insert_ne by (intros ->; contradiction). reflexivity.
Qed.


Lemma info_attached (w : World) (name : nat) (msg : dict) (h : handler_id) :
  NoDup (logger_handlers w name) -> h ∈ logger_handlers w name ->
  get_handler (info w name msg) h = handle (get_handler w h) msg.
Proof.
  intros Hnd Hin. unfold get_handler, info. simpl.
  now rewrite deliver_once.
Qed.

Lemma info_loggers (w : World) (name : nat) (msg : dict) :
  loggers (info w name msg) = loggers w.
Proof. reflexivity. Qed.

(** ** The shape of a call of [emit] *)

(** A call that returns a capsule went through every stage. *)
Lemma emit_returns_capsule (w w' : World) (el : EventLogger)
  (schema_name : string) (version : Z) (event event' : dict)
  (timestamp_override : option datetime) (utcnow : datetime) (c : dict) :
  emit w el schema_name version event timestamp_override utcnow
  = (w', event', Returns (Some c)) ->
  exists schema,
    handlers el <> []
    /\ get (schema_registry el) (schema_name, version) = Some schema
    /\ validate schema event = None
    /\ event' = enforce_redaction_policies
                  schema (reg_allowed_policies (schema_registry el)) event
    /\ c = event' ∪ empty_capsule (default utcnow timestamp_override)
                                   schema_name version
    /\ w' = info w (self_id el) c.
Proof.
  unfold emit. intros H.
  destruct (handlers el) as [|h0 hs] eqn:Hh; simpl in H; [discriminate|].
  destruct (contains _ _); simpl in H; [|discriminate].
  destruct (get _ _) as [schema|]; [|discriminate].
  destruct (validate schema event) eqn:Hv; [discriminate|].
  exists schema. injection H as <- <- <-.
  destruct timestamp_override; simpl; repeat split; congruence.
Qed.


(** ** C1 and C2: the silent no-op and the validation failure *)

(** C1: when the sink list is empty, or the pair (schema id, version) is
    not in the registry, [emit] returns at once: the world (every sink
    included) and the event are untouched, nothing is raised, whatever
    the event is, and no capsule is returned. *)
Theorem emit_noop (w : World) (el : EventLogger) (schema_name : string)
  (version : Z) (event : dict) (timestamp_override : option datetime)
  (utcnow : datetime) :
  handlers el = [] \/ contains (schema_registry el) (schema_name, version) = false ->
  emit w el schema_name version event timestamp_override utcnow
  = (w, event, Returns None).
Proof.
  intros [H|H]; unfold emit; rewrite H; simpl; [reflexivity|].
  now rewrite orb_true_r.
Qed.

(** C2: when [validate] rejects the event, [emit] raises that error: the
    world is as before (no sink has a new record), the event is as before,
    and there is no returned capsule. *)
Theorem emit_validation_error (w : World) (el : EventLogger)
  (schema_name : string) (version : Z) (event : dict)
  (timestamp_override : option datetime) (utcnow : datetime)
  (schema : Schema) (e : EventValidationError) :
  handlers el <> [] ->
  get (schema_registry el) (schema_name, version) = Some schema ->
  validate schema event = Some e ->
  emit w el schema_name version event timestamp_override utcnow
  = (w, event, Raises (ValidationError e)).
Proof.
  intros Hh Hg Hv. unfold emit, contains. unfold get in Hg. rewrite Hg.
  destruct (handlers el); [congruence|]. simpl.
  unfold get. now rewrite Hg, Hv.
Qed.

(** ** C6: dispatch *)


(** ** C7: the formatter installed by [add_handler] *)


Lemma setFormatter_formatter (w : World) (h : handler_id) (f : Formatter) :
  formatter (get_handler (setFormatter w h f) h) = f.
Proof.
  unfold get_handler, setFormatter. simpl. now rewrite lookup_insert_eq.
Qed.

Lemma addHandler_handler_objects (w : World) (name : nat) (h : handler_id) :
  handler_objects (addHandler w name h) = handler_objects w.
Proof. unfold addHandler. now destruct (mem_handler _ _). Qed.


Lemma add_handler_world (w : World) (el : EventLogger) (h : handler_id) :
  (add_handler w el h).1
  = addHandler (setFormatter w h JsonFormatter_skip_message) (self_id el) h.
Proof. unfold add_handler. now destruct (mem_handler _ _). Qed.

Lemma add_handler_self_id (w : World) (el : EventLogger) (h : handler_id) :
  self_id (add_handler w el h).2 = self_id el.
Proof. unfold add_handler. now destruct (mem_handler _ _). Qed.

Lemma add_handler_handlers (w : World) (el : EventLogger) (h : handler_id) :
  handlers (add_handler w el h).2
  = if mem_handler h (handlers el) then handlers el
    else (handlers el ++ [h])%list.
Proof. unfold add_handler. now destruct (mem_handler _ _). Qed.


(** Where the sink list and the logger's handlers are in step, the capsule
    reaches every handler of the sink list. *)
Lemma emit_reaches_sink_list (w w' : World) (el : EventLogger)
  (schema_name : string) (version : Z) (event event' : dict)
  (timestamp_override : option datetime) (utcnow : datetime) (c : dict)
  (h : handler_id) :
  NoDup (logger_handlers w (self_id el)) ->
  (forall x, x ∈ handlers el -> x ∈ logger_handlers w (self_id el)) ->
  emit w el schema_name version event timestamp_override utcnow
  = (w', event', Returns (Some c)) ->
  h ∈ handlers el ->
  get_handler w' h = handle (get_handler w h) c.
Proof.
  intros Hnd Hs H Hin.
  apply emit_returns_capsule in H as (schema & _ & _ & _ & _ & _ & ->).
  apply info_attached; [assumption | now apply Hs].
Qed.

(** ** C8: two instances *)


Lemma emit_world (w : World) (el : EventLogger) (schema_name : string)
  (version : Z) (event : dict) (timestamp_override : option datetime)
  (utcnow : datetime) :
  let r := emit w el schema_name version event timestamp_override utcnow in
  match r.2 with
  | Returns (Some c) => r.1.1 = info w (self_id el) c
  | _ => r.1.1 = w
  end.
Proof.
  unfold emit. destruct (_ || _); [reflexivity|].
  destruct (get _ _) as [schema|]; [|reflexivity].
  destruct (validate schema event); reflexivity.
Qed.


Lemma emit_unattached_lookup (w : World) (el : EventLogger)
  (schema_name : string) (version : Z) (event : dict)
  (timestamp_override : option datetime) (utcnow : datetime) (h : handler_id) :
  h ∉ logger_handlers w (self_id el) ->
  handler_objects
    (emit w el schema_name version event timestamp_override utcnow).1.1 !! h
  = handler_objects w !! h.
Proof.
  intros Hn.
  pose proof (emit_world w el schema_name version event timestamp_override
                utcnow) as Hw. simpl in Hw.
  destruct (emit _ _ _ _ _ _ _).2 as [[c|]|e]; rewrite Hw;
    [|reflexivity|reflexivity].
  unfold info. simpl. now apply deliver_other.
Qed.

Lemma emit_loggers (w : World) (el : EventLogger) (schema_name : string)
  (version : Z) (event : dict) (timestamp_override : option datetime)
  (utcnow : datetime) :
  loggers (emit w el schema_name version event timestamp_override utcnow).1.1
  = loggers w.
Proof.
  pose proof (emit_world w el schema_name version event timestamp_override
                utcnow) as Hw. simpl in Hw.
  destruct (emit _ _ _ _ _ _ _).2 as [[c|]|e]; now rewrite Hw.
Qed.


(** ** The sink list and the logger's handlers *)

Lemma world_ok_logger_handlers (w : World) (name : nat) :
  world_ok w -> NoDup (logger_handlers w name).
Proof.
  intros Hok. unfold logger_handlers.
  destruct (loggers w !! name) as [hs|] eqn:Hl; simpl.
  - exact (Hok _ _ Hl).
  - constructor.
Qed.

Lemma empty_world_ok : world_ok empty_world.
Proof. intros name hs H. simpl in H. now rewrite lookup_empty in H. Qed.

Lemma getLogger_ok (w : World) (name : nat) :
  world_ok w -> world_ok (getLogger w name).
Proof.
  intros Hok. unfold getLogger.
  destruct (loggers w !! name) eqn:Hl; [assumption|].
  intros n hs H. simpl in H.
  destruct (decide (name = n)) as [->|Hne].
  - rewrite lookup_insert_eq in H. injection H as <-. constructor.
  - rewrite lookup_insert_ne in H by assumption. exact (Hok _ _ H).
Qed.

Lemma getLogger_logger_handlers (w : World) (name n : nat) :
  logger_handlers (getLogger w name) n = logger_handlers w n.
Proof.
  unfold getLogger, logger_handlers.
  destruct (loggers w !! name) eqn:Hl; [reflexivity|]. simpl.
  destruct (decide (name = n)) as [->|Hne].
  - now rewrite lookup_insert_eq, Hl.
  - now rewrite lookup_insert_ne.
Qed.

Lemma setFormatter_loggers (w : World) (h : handler_id) (f : Formatter) :
  loggers (setFormatter w h f) = loggers w.
Proof. reflexivity. Qed.

Lemma addHandler_logger_handlers (w : World) (name n : nat) (h : handler_id) :
  logger_handlers (addHandler w name h) n
  = if decide (name = n)
    then if mem_handler h (logger_handlers w name)
         then logger_handlers w name
         else (logger_handlers w name ++ [h])%list
    else logger_handlers w n.
Proof.
  unfold addHandler.
  destruct (mem_handler h (logger_handlers w name)) eqn:Hm.
  - destruct (decide (name = n)) as [->|]; reflexivity.
  - unfold logger_handlers at 1. simpl.
    destruct (decide (name = n)) as [->|Hne].
    + now rewrite lookup_insert_eq.
    + now rewrite lookup_insert_ne.
Qed.

Lemma addHandler_ok (w : World) (name : nat) (h : handler_id) :
  world_ok w -> world_ok (addHandler w name h).
Proof.
  intros Hok. unfold addHandler.
  destruct (mem_handler h (logger_handlers w name)) eqn:Hm; [assumption|].
  intros n hs H. simpl in H.
  destruct (decide (name = n)) as [->|Hne].
  - rewrite lookup_insert_eq in H. injection H as <-.
    apply NoDup_app. split; [now apply world_ok_logger_handlers|]. split.
    + intros x Hx Hx'. apply list_elem_of_singleton in Hx'. subst x.
      now apply mem_handler_not_elem_of in Hm.
    + apply NoDup_singleton.
  - rewrite lookup_insert_ne in H by assumption. exact (Hok _ _ H).
Qed.

Lemma removeHandler_ok (w : World) (name : nat) (h : handler_id) :
  world_ok w -> world_ok (removeHandler w name h).
Proof.
  intros Hok. unfold removeHandler.
  destruct (mem_handler h (logger_handlers w name)); [|assumption].
  intros n hs H. simpl in H.
  destruct (decide (name = n)) as [->|Hne].
  - rewrite lookup_insert_eq in H. injection H as <-.
    apply NoDup_list_remove. now apply world_ok_logger_handlers.
  - rewrite lookup_insert_ne in H by assumption. exact (Hok _ _ H).
Qed.

Lemma add_handler_ok (w : World) (el : EventLogger) (h : handler_id) :
  world_ok w -> world_ok (add_handler w el h).1.
Proof.
  intros Hok. rewrite add_handler_world. apply addHandler_ok.
  intros n hs H. exact (Hok _ _ H).
Qed.

Lemma remove_handler_ok (w : World) (el : EventLogger) (h : handler_id) :
  world_ok w -> world_ok (remove_handler w el h).1.
Proof.
  intros Hok. unfold remove_handler.
  destruct (mem_handler _ _); simpl; now apply removeHandler_ok.
Qed.

Lemma emit_ok (w : World) (el : EventLogger) (schema_name : string)
  (version : Z) (event : dict) (timestamp_override : option datetime)
  (utcnow : datetime) :
  world_ok w ->
  world_ok (emit w el schema_name version event timestamp_override utcnow).1.1.
Proof.
  intros Hok n hs H. rewrite emit_loggers in H. exact (Hok _ _ H).
Qed.

Lemma foldl_add_handler_ok (l : list handler_id) (s : World * EventLogger) :
  world_ok s.1 ->
  world_ok (foldl (fun s handler => add_handler s.1 s.2 handler) s l).1.
Proof.
  revert s. induction l as [|h l IH]; intros s Hok; simpl; [assumption|].
  apply IH. now apply add_handler_ok.
Qed.

Lemma EventLogger_init_ok (w : World) (id : nat)
  (handlers_kw : option (list handler_id))
  (allowed_policies_kw : option (list string)) :
  world_ok w ->
  world_ok (EventLogger_init w id handlers_kw allowed_policies_kw).1.
Proof.
  intros Hok. unfold EventLogger_init. apply foldl_add_handler_ok.
  now apply getLogger_ok.
Qed.

(** [add_handler] keeps the two lists in step. *)
Lemma add_handler_in_sync (w : World) (el : EventLogger) (h : handler_id) :
  in_sync w el -> in_sync (add_handler w el h).1 (add_handler w el h).2.
Proof.
  intros Hs x. rewrite add_handler_world, add_handler_self_id,
    add_handler_handlers, addHandler_logger_handlers.
  rewrite decide_True by reflexivity.
  change (logger_handlers (setFormatter w h JsonFormatter_skip_message)
            (self_id el)) with (logger_handlers w (self_id el)).
  destruct (mem_handler h (handlers el)) eqn:M1,
           (mem_handler h (logger_handlers w (self_id el))) eqn:M2.
  - apply Hs.
  - apply mem_handler_elem_of in M1. apply mem_handler_not_elem_of in M2.
    now apply Hs in M1.
  - apply mem_handler_not_elem_of in M1. apply mem_handler_elem_of in M2.
    now apply Hs in M2.
  - rewrite !elem_of_app. now rewrite (Hs x).
Qed.

Lemma foldl_add_handler_in_sync (l : list handler_id)
  (s : World * EventLogger) :
  in_sync s.1 s.2 ->
  let s' := foldl (fun s handler => add_handler s.1 s.2 handler) s l in
  in_sync s'.1 s'.2.
Proof.
  revert s. induction l as [|h l IH]; intros s Hs; simpl; [assumption|].
  apply IH. now apply add_handler_in_sync.
Qed.

Lemma foldl_add_handler_handlers (l : list handler_id)
  (s : World * EventLogger) :
  (forall h, h ∈ l -> h ∈ handlers s.2) ->
  handlers (foldl (fun s handler => add_handler s.1 s.2 handler) s l).2
  = handlers s.2.
Proof.
  revert s. induction l as [|h l IH]; intros s Hl; simpl; [reflexivity|].
  assert (Hh : handlers (add_handler s.1 s.2 h).2 = handlers s.2).
  { rewrite add_handler_handlers.
    assert (Hm : mem_handler h (handlers s.2) = true).
    { apply mem_handler_elem_of, Hl, elem_of_cons. now left. }
    now rewrite Hm. }
  rewrite IH; [exact Hh|].
  intros x Hx. rewrite Hh. apply Hl, elem_of_cons. now right.
Qed.

(** The constructor leaves the sink list as configured. *)
Lemma EventLogger_init_handlers (w : World) (id : nat)
  (handlers_kw : option (list handler_id))
  (allowed_policies_kw : option (list string)) :
  handlers (EventLogger_init w id handlers_kw allowed_policies_kw).2
  = default [] handlers_kw.
Proof.
  unfold EventLogger_init. rewrite foldl_add_handler_handlers; [reflexivity|].
  simpl. tauto.
Qed.

Lemma elem_of_list_remove_NoDup (h x : handler_id) (l : list handler_id) :
  NoDup l -> x ∈ list_remove h l <-> x ∈ l /\ x <> h.
Proof.
  induction 1 as [|y l Hy Hl IH]; simpl.
  - rewrite elem_of_nil. tauto.
  - destruct (Nat.eqb_spec h y) as [->|Hne].
    + rewrite elem_of_cons. split.
      * intros Hx. split; [now right|]. intros ->. contradiction.
      * intros [[->|Hx] Hn]; [congruence | assumption].
    + rewrite !elem_of_cons, IH. split.
      * intros [->|[Hx Hn]]; [split; [now left | congruence]|].
        split; [now right | assumption].
      * intros [[->|Hx] Hn]; [now left | now right].
Qed.

Lemma removeHandler_logger_handlers (w : World) (name : nat) (h : handler_id) :
  logger_handlers (removeHandler w name h) name
  = list_remove h (logger_handlers w name).
Proof.
  unfold removeHandler.
  destruct (mem_handler h (logger_handlers w name)) eqn:Hm.
  - unfold logger_handlers at 1. simpl. now rewrite lookup_insert_eq.
  - symmetry. apply list_remove_absent. now apply mem_handler_not_elem_of.
Qed.

Lemma remove_handler_handlers (w : World) (el : EventLogger) (h : handler_id) :
  handlers (remove_handler w el h).2 = list_remove h (handlers el)
  /\ self_id (remove_handler w el h).2 = self_id el
  /\ (remove_handler w el h).1 = removeHandler w (self_id el) h.
Proof.
  unfold remove_handler.
  destruct (mem_handler h (handlers el)) eqn:Hm; simpl; [now repeat split|].
  repeat split. symmetry. apply list_remove_absent.
  now apply mem_handler_not_elem_of.
Qed.

(** [remove_handler] keeps the two lists in step on a sink list without
    duplicates. *)
Lemma remove_handler_in_sync (w : World) (el : EventLogger) (h : handler_id) :
  world_ok w -> NoDup (handlers el) -> in_sync w el ->
  in_sync (remove_handler w el h).1 (remove_handler w el h).2.
Proof.
  intros Hok Hnd Hs x.
  pose proof (world_ok_logger_handlers w (self_id el) Hok) as Hnd'.
  destruct (remove_handler_handlers w el h) as (-> & -> & ->).
  rewrite removeHandler_logger_handlers.
  rewrite !elem_of_list_remove_NoDup by assumption.
  now rewrite (Hs x).
Qed.

(** ** C10: [add_handler] twice, [remove_handler] of an absent handler *)



Lemma mem_handler_app_self (h : handler_id) (l : list handler_id) :
  mem_handler h (l ++ [h]) = true.
Proof.
  apply mem_handler_elem_of, elem_of_app. right.
  apply list_elem_of_singleton. reflexivity.
Qed.





(** ** Validation, redaction and the reserved keys *)

Lemma lookup_property_Some (name : string) (ps : list (string * PropertySpec))
  (p : PropertySpec) :
  lookup_property name ps = Some p -> (name, p) ∈ ps.
Proof.
  induction ps as [|[n q] ps IH]; simpl; [discriminate|].
  destruct (String.eqb_spec n name) as [->|_].
  - intros [= ->]. apply elem_of_cons. now left.
  - intros H. apply elem_of_cons. right. now apply IH.
Qed.

Lemma unknown_reserved_of_reserved (s : Schema) (name : string) :
  schema_ok s -> reserved name = true -> unknown_reserved s name = true.
Proof.
  intros Hok Hr. unfold unknown_reserved. rewrite Hr. simpl.
  destruct (lookup_property name (properties s)) as [p|] eqn:Hl; [|reflexivity].
  apply lookup_property_Some in Hl.
  unfold schema_ok in Hok. rewrite Forall_forall in Hok.
  specialize (Hok _ Hl). simpl in Hok. congruence.
Qed.

(** An event that a well-formed schema accepts has no reserved key. *)
Lemma validate_no_reserved (s : Schema) (event : dict) (name : string) :
  schema_ok s -> validate s event = None -> reserved name = true ->
  event !! name = None.
Proof.
  intros Hok Hv Hr. unfold validate in Hv.
  destruct (check_required _ _); [discriminate|].
  destruct (check_values _ _); [discriminate|].
  unfold check_reserved in Hv.
  destruct (List.filter _ _) as [|n l] eqn:Hf; [|discriminate].
  destruct (event !! name) as [v|] eqn:Hl; [|reflexivity].
  exfalso.
  assert (Hin : In name (List.filter (unknown_reserved s)
                                     (map fst (map_to_list event)))).
  { apply filter_In. split.
    - apply in_map_iff. exists (name, v). split; [reflexivity|].
      apply list_elem_of_In, elem_of_map_to_list. exact Hl.
    - now apply unknown_reserved_of_reserved. }
  rewrite Hf in Hin. destruct Hin.
Qed.

(** Redaction only removes keys. *)
Lemma enforce_redaction_policies_None (s : Schema) (allowed : list string)
  (event : dict) (name : string) :
  event !! name = None ->
  enforce_redaction_policies s allowed event !! name = None.
Proof.
  intros H. unfold enforce_redaction_policies.
  apply map_lookup_filter_None_2. now left.
Qed.

(** Under the wildcard nothing is removed. *)
Lemma enforce_redaction_policies_all (s : Schema) (allowed : list string)
  (event : dict) :
  mem_string "all" allowed = true ->
  enforce_redaction_policies s allowed event = event.
Proof.
  intros H. unfold enforce_redaction_policies. apply map_filter_id.
  intros k v _. simpl. unfold retained. now rewrite H.
Qed.

Lemma empty_capsule_timestamp (t : datetime) (schema_name : string)
  (version : Z) :
  empty_capsule t schema_name version !! "__timestamp__"
  = Some (JStr (isoformat t ++ "Z")).
Proof.
  unfold empty_capsule.
  rewrite !lookup_insert_ne by discriminate. apply lookup_insert_eq.
Qed.

(** The timestamp of a returned capsule is the one [emit] put there. *)
Lemma emit_capsule_timestamp (w w' : World) (el : EventLogger)
  (schema_name : string) (version : Z) (event event' : dict)
  (timestamp_override : option datetime) (utcnow : datetime) (c : dict) :
  registry_ok (schema_registry el) ->
  emit w el schema_name version event timestamp_override utcnow
  = (w', event', Returns (Some c)) ->
  c !! "__timestamp__"
  = Some (JStr (isoformat (default utcnow timestamp_override) ++ "Z")).
Proof.
  intros Hok H.
  apply emit_returns_capsule in H
    as (schema & _ & Hg & Hv & -> & -> & _).
  rewrite lookup_union_r; [apply empty_capsule_timestamp|].
  apply enforce_redaction_policies_None.
  apply (validate_no_reserved schema); [|assumption|reflexivity].
  exact (Hok _ _ Hg).
Qed.

(** ** C4: the timestamp *)

(** C4: in every successful emission the capsule's [__timestamp__] is the
    [isoformat()] text of the override followed by ["Z"] when an override is
    given, and that of the clock's [utcnow()] otherwise. *)
Theorem emit_timestamp (w w' : World) (el : EventLogger)
  (schema_name : string) (version : Z) (event event' : dict)
  (timestamp_override : option datetime) (utcnow : datetime) (c : dict) :
  registry_ok (schema_registry el) ->
  emit w el schema_name version event timestamp_override utcnow
  = (w', event', Returns (Some c)) ->
  match timestamp_override with
  | Some t => c !! "__timestamp__" = Some (JStr (isoformat t ++ "Z"))
  | None => c !! "__timestamp__" = Some (JStr (isoformat utcnow ++ "Z"))
  end.
Proof.
  intros Hok H.
  pose proof (emit_capsule_timestamp _ _ _ _ _ _ _ _ _ _ Hok H) as Ht.
  now destruct timestamp_override.
Qed.

(** ** C9: the override is formatted as it stands *)

Lemma string_app_cons (x : ascii) (a b : string) :
  String x a ++ b = String x (a ++ b).
Proof. reflexivity. Qed.

Lemma string_length_app (a b : string) :
  String.length (a ++ b) = String.length a + String.length b.
Proof.
  induction a as [|x a IH]; [reflexivity|].
  rewrite string_app_cons. simpl. now rewrite IH.
Qed.

Lemma string_app_nil_r (a : string) : a ++ "" = a.
Proof.
  induction a as [|x a IH]; [reflexivity|].
  now rewrite string_app_cons, IH.
Qed.

Lemma string_app_assoc (a b c : string) : (a ++ b) ++ c = a ++ (b ++ c).
Proof.
  induction a as [|x a IH]; [reflexivity|].
  now rewrite !string_app_cons, IH.
Qed.

Lemma zpad_length (w : nat) (n : N) : String.length (zpad w n) = w.
Proof.
  revert n. induction w as [|w IH]; intros n; simpl; [reflexivity|].
  rewrite string_length_app, IH. simpl. lia.
Qed.

Lemma _format_time_length (hh mm ss us : N) :
  String.length (_format_time hh mm ss us) = 8
  \/ String.length (_format_time hh mm ss us) = 15.
Proof.
  unfold _format_time. destruct (us =? 0)%N;
    repeat (rewrite string_length_app || rewrite zpad_length); simpl;
    [left | right]; reflexivity.
Qed.

Lemma _format_offset_length (off : Z) :
  6 <= String.length (_format_offset (Some off)).
Proof.
  unfold _format_offset.
  repeat (rewrite string_length_app || rewrite zpad_length).
  destruct (off <? 0)%Z; simpl; lia.
Qed.

Lemma isoformat_naive_aware (t : datetime) :
  isoformat t = isoformat (naive t) ++ _format_offset (utcoffset t).
Proof.
  unfold isoformat, naive.
  cbn [year month day hour minute second microsecond utcoffset].
  change (_format_offset None) with "".
  rewrite string_app_nil_r. now rewrite !string_app_assoc.
Qed.

Lemma isoformat_length_naive (u : datetime) :
  utcoffset u = None ->
  String.length (isoformat u) = 19 \/ String.length (isoformat u) = 26.
Proof.
  intros Hu. unfold isoformat. rewrite Hu. simpl _format_offset.
  rewrite string_app_nil_r.
  destruct (_format_time_length (hour u) (minute u) (second u)
              (microsecond u)) as [H|H];
    repeat (rewrite string_length_app || rewrite zpad_length);
    rewrite H; simpl; [left | right]; reflexivity.
Qed.

(** The text of a datetime that carries an offset is never the text of a
    datetime without one: the two differ in length. *)
Lemma isoformat_aware_not_naive (t u : datetime) (off : Z) (z : string) :
  utcoffset t = Some off -> utcoffset u = None ->
  isoformat t ++ z <> isoformat u ++ z.
Proof.
  intros Ht Hu Heq.
  assert (Hlen : String.length (isoformat t ++ z)
                 = String.length (isoformat u ++ z))
    by now rewrite Heq.
  rewrite !string_length_app in Hlen.
  rewrite (isoformat_naive_aware t), string_length_app, Ht in Hlen.
  pose proof (_format_offset_length off) as Hoff.
  destruct (isoformat_length_naive (naive t) eq_refl) as [H1|H1];
    destruct (isoformat_length_naive u Hu) as [H2|H2];
    rewrite H1, H2 in Hlen; try lia.
  (* 19 + offset = 26: the offset text has 6, 9 or 16 characters *)
  assert (Ho : String.length (_format_offset (Some off)) <> 7).
  { clear. unfold _format_offset.
    repeat (rewrite string_length_app || rewrite zpad_length).
    destruct (off <? 0)%Z; simpl;
      repeat match goal with
             | |- context [if ?b then _ else _] => destruct b; simpl
             end;
      repeat (rewrite string_length_app || rewrite zpad_length); simpl; lia. }
  lia.
Qed.

(** C9: with an override that carries a UTC offset, [__timestamp__] is the
    override's own wall-clock fields, then its offset, then ["Z"]: nothing
    is converted to UTC, and the text is not the ["...Z"] rendering of any
    datetime without offset, that of the UTC instant included. *)
Theorem emit_timestamp_keeps_offset (w w' : World) (el : EventLogger)
  (schema_name : string) (version : Z) (event event' : dict)
  (t utcnow : datetime) (off : Z) (c : dict) :
  registry_ok (schema_registry el) ->
  utcoffset t = Some off ->
  emit w el schema_name version event (Some t) utcnow
  = (w', event', Returns (Some c)) ->
  c !! "__timestamp__" = Some (JStr (isoformat t ++ "Z"))
  /\ isoformat t ++ "Z"
     = isoformat (naive t) ++ _format_offset (Some off) ++ "Z"
  /\ forall u : datetime,
       utcoffset u = None ->
       c !! "__timestamp__" <> Some (JStr (isoformat u ++ "Z")).
Proof.
  intros Hok Ht H.
  pose proof (emit_capsule_timestamp _ _ _ _ _ _ _ _ _ _ Hok H) as Hc.
  simpl in Hc. split; [exact Hc|]. split.
  - rewrite (isoformat_naive_aware t), Ht. apply string_app_assoc.
  - intros u Hu Heq. rewrite Hc in Heq.
    apply (isoformat_aware_not_naive t u off "Z" Ht Hu). congruence.
Qed.

(** ** The registry invariant *)

Lemma compile_properties_ok (l : list (string * PropertyDefinition))
  (ps : list (string * PropertySpec)) :
  compile_properties l = inr ps ->
  Forall (fun np => reserved np.1 = false) ps.
Proof.
  revert ps. induction l as [|[n d] l IH]; simpl; intros ps H.
  - injection H as <-. constructor.
  - unfold compile_property in H.
    destruct (reserved n) eqn:Hr; [discriminate|].
    destruct (pd_type d); [|discriminate].
    destruct (pd_redactionPolicies d) as [pl|].
    + destruct (policy_strings pl); [|discriminate].
      destruct (compile_properties l); [discriminate|].
      injection H as <-. constructor; [exact Hr | now apply IH].
    + destruct (compile_properties l); [discriminate|].
      injection H as <-. constructor; [exact Hr | now apply IH].
Qed.

Lemma compile_definition_ok (d : SchemaDefinition) (s : Schema) :
  compile_definition d = inr s -> schema_ok s.
Proof.
  unfold compile_definition, schema_ok. intros H.
  destruct (sd_id d) as [[| | |id| |]|]; try discriminate;
    destruct (sd_version d) as [[| |v| | |]|]; try discriminate.
  destruct (compile_properties (sd_properties d)) eqn:Hc; [discriminate|].
  destruct (policy_strings _); [|discriminate].
  injection H as <-. simpl.
  now apply (compile_properties_ok (sd_properties d)).
Qed.

Lemma SchemaRegistry_init_ok (allowed : list string) :
  registry_ok (SchemaRegistry_init allowed).
Proof. intros key s H. simpl in H. now rewrite lookup_empty in H. Qed.

Lemma register_ok (r r' : SchemaRegistry) (d : SchemaDefinition) :
  registry_ok r -> register r d = inr r' -> registry_ok r'.
Proof.
  unfold register. intros Hok H.
  destruct (compile_definition d) as [|s] eqn:Hc; [discriminate|].
  destruct (contains r _); [discriminate|]. injection H as <-.
  intros key s' Hl. simpl in Hl.
  destruct (decide ((schema_id s, schema_version s) = key)) as [<-|Hne].
  - rewrite lookup_insert_eq in Hl. injection Hl as <-.
    now apply (compile_definition_ok d).
  - rewrite lookup_insert_ne in Hl by assumption. now apply (Hok key).
Qed.

(** Registration never changes the allowed policies of the registry, and a
    rejected definition stores nothing. *)
Lemma register_allowed_policies (r r' : SchemaRegistry) (d : SchemaDefinition) :
  register r d = inr r' -> reg_allowed_policies r' = reg_allowed_policies r.
Proof.
  unfold register. intros H.
  destruct (compile_definition d); [discriminate|].
  destruct (contains r _); [discriminate|]. now injection H as <-.
Qed.

(** ** Construction *)

Lemma add_handler_traits (w : World) (el : EventLogger) (h : handler_id) :
  allowed_policies (add_handler w el h).2 = allowed_policies el
  /\ schema_registry (add_handler w el h).2 = schema_registry el.
Proof. unfold add_handler. now destruct (mem_handler _ _). Qed.

Lemma foldl_add_handler_traits (l : list handler_id) (s : World * EventLogger) :
  let s' := foldl (fun s handler => add_handler s.1 s.2 handler) s l in
  self_id s'.2 = self_id s.2
  /\ allowed_policies s'.2 = allowed_policies s.2
  /\ schema_registry s'.2 = schema_registry s.2.
Proof.
  revert s. induction l as [|h l IH]; intros s; simpl; [now repeat split|].
  destruct (IH (add_handler s.1 s.2 h)) as (H1 & H2 & H3). simpl in *.
  rewrite H1, H2, H3, add_handler_self_id.
  destruct (add_handler_traits s.1 s.2 h) as [-> ->]. now repeat split.
Qed.

Lemma EventLogger_init_traits (w : World) (id : nat)
  (handlers_kw : option (list handler_id))
  (allowed_policies_kw : option (list string)) :
  let el := (EventLogger_init w id handlers_kw allowed_policies_kw).2 in
  self_id el = id
  /\ allowed_policies el = default ["all"] allowed_policies_kw
  /\ schema_registry el = SchemaRegistry_init (allowed_policies el).
Proof.
  simpl. unfold EventLogger_init.
  match goal with
  | |- context [foldl ?f ?s ?l] =>
      destruct (foldl_add_handler_traits l s) as (H1 & H2 & H3)
  end.
  simpl in *. rewrite H1, H2, H3. now repeat split.
Qed.

Lemma add_handler_attached_iff (w : World) (el : EventLogger)
  (h x : handler_id) :
  x ∈ logger_handlers (add_handler w el h).1 (self_id el)
  <-> x ∈ logger_handlers w (self_id el) \/ x = h.
Proof.
  rewrite add_handler_world, addHandler_logger_handlers.
  rewrite decide_True by reflexivity.
  change (logger_handlers (setFormatter w h JsonFormatter_skip_message)
            (self_id el)) with (logger_handlers w (self_id el)).
  destruct (mem_handler h (logger_handlers w (self_id el))) eqn:Hm.
  - apply mem_handler_elem_of in Hm. split; [tauto|].
    intros [Hx| ->]; assumption.
  - now rewrite elem_of_app, list_elem_of_singleton.
Qed.

Lemma foldl_add_handler_attached (l : list handler_id)
  (s : World * EventLogger) (x : handler_id) :
  let s' := foldl (fun s handler => add_handler s.1 s.2 handler) s l in
  x ∈ logger_handlers s'.1 (self_id s.2)
  <-> x ∈ logger_handlers s.1 (self_id s.2) \/ x ∈ l.
Proof.
  revert s. induction l as [|h l IH]; intros s; simpl.
  - rewrite elem_of_nil. tauto.
  - specialize (IH (add_handler s.1 s.2 h)). simpl in IH.
    rewrite add_handler_self_id in IH.
    rewrite IH, add_handler_attached_iff, elem_of_cons. tauto.
Qed.

(** An instance constructed under a logger name that is new has its sink
    list and its logger's handlers in step. *)
Lemma EventLogger_init_in_sync (w : World) (id : nat)
  (handlers_kw : option (list handler_id))
  (allowed_policies_kw : option (list string)) :
  loggers w !! id = None ->
  let s := EventLogger_init w id handlers_kw allowed_policies_kw in
  in_sync s.1 s.2.
Proof.
  intros Hnew. simpl. intros x.
  rewrite EventLogger_init_handlers.
  destruct (EventLogger_init_traits w id handlers_kw allowed_policies_kw)
    as (-> & _ & _).
  unfold EventLogger_init.
  match goal with
  | |- context [foldl ?f ?s ?l] =>
      pose proof (foldl_add_handler_attached l s x) as H
  end.
  simpl in H. rewrite H, getLogger_logger_handlers.
  unfold logger_handlers. rewrite Hnew. simpl. rewrite elem_of_nil. tauto.
Qed.

(** ** C5: redaction between validation and the merge *)


(** ** C3: the event of §8 *)

Lemma compile_test_definition : compile_definition test_definition = inr test_schema.
Proof. reflexivity. Qed.

Lemma validate_test_event : validate test_schema test_event = None.
Proof. vm_compute. reflexivity. Qed.

Lemma test_capsule_fields (stamp : json) :
  delete "__timestamp__"
    (test_event
       ∪ <["__metadata_version__" := JInt EVENTS_METADATA_VERSION]>
           (<["__schema_version__" := JInt 1]>
              (<["__schema__" := JStr "test/test"]>
                 (<["__timestamp__" := stamp]> ∅))))
  = test_capsule.
Proof. vm_compute. reflexivity. Qed.

(** C3: on an instance with a sink, the default allowed policies and the
    schema of §8 in its registry, emitting [{"something": "blah"}] returns a
    capsule made of a [__timestamp__] and, besides it, exactly
    [__schema__ = "test/test"], [__schema_version__ = 1],
    [__metadata_version__ = 1] and [something = "blah"]. *)
Theorem emit_test_event (w : World) (el : EventLogger)
  (timestamp_override : option datetime) (utcnow : datetime) :
  handlers el <> [] ->
  allowed_policies el = ["all"] ->
  reg_allowed_policies (schema_registry el) = allowed_policies el ->
  get (schema_registry el) ("test/test", 1%Z) = Some test_schema ->
  exists (c : dict) (stamp : string),
    emit w el "test/test" 1 test_event timestamp_override utcnow
    = (info w (self_id el) c, test_event, Returns (Some c))
    /\ c !! "__timestamp__" = Some (JStr stamp)
    /\ delete "__timestamp__" c = test_capsule.
Proof.
  intros Hh Ha Hr Hg.
  set (stamp := isoformat (default utcnow timestamp_override) ++ "Z").
  exists (test_event ∪ empty_capsule (default utcnow timestamp_override)
                          "test/test" 1), stamp.
  assert (Hred : enforce_redaction_policies test_schema
                   (reg_allowed_policies (schema_registry el)) test_event
                 = test_event).
  { apply enforce_redaction_policies_all. now rewrite Hr, Ha. }
  split; [|split].
  - unfold emit, contains. unfold get in Hg. rewrite Hg.
    destruct (handlers el); [congruence|]. simpl.
    unfold get. rewrite Hg, validate_test_event, Hred.
    now destruct timestamp_override.
  - rewrite lookup_union_r by reflexivity. apply empty_capsule_timestamp.
  - apply test_capsule_fields.
Qed.

(** ** The claims on the instance of §8 *)

Lemma test_logger_handlers : handlers test_logger = [3].
Proof. reflexivity. Qed.

Lemma test_logger_get :
  get (schema_registry test_logger) ("test/test", 1%Z) = Some test_schema.
Proof. vm_compute. reflexivity. Qed.

Lemma test_logger_registry_ok : registry_ok (schema_registry test_logger).
Proof.
  assert (H : exists r,
             register (SchemaRegistry_init ["all"]) test_definition = inr r
             /\ schema_registry test_logger = r).
  { eexists. split; reflexivity. }
  destruct H as (r & Hr & ->).
  eapply register_ok; [apply SchemaRegistry_init_ok | exact Hr].
Qed.


Lemma emit_noop_witness :
  (handlers unconfigured_logger = []
   \/ contains (schema_registry unconfigured_logger) ("test/test", 1%Z) = false)
  /\ get (schema_registry unconfigured_logger) ("test/test", 1%Z)
     = Some test_schema
  /\ validate test_schema bad_event = Some (InvalidValue "something")
  /\ emit empty_world unconfigured_logger "test/test" 1 bad_event None
          sample_utcnow
     = (empty_world, bad_event, Returns None).
Proof.
  split; [left; reflexivity|].
  split; [vm_compute; reflexivity|].
  split; [vm_compute; reflexivity|].
  apply emit_noop. left. reflexivity.
Defined.

Lemma emit_validation_error_witness :
  handlers test_logger <> []
  /\ get (schema_registry test_logger) ("test/test", 1%Z) = Some test_schema
  /\ validate test_schema bad_event = Some (InvalidValue "something")
  /\ emit test_world test_logger "test/test" 1 bad_event None sample_utcnow
     = (test_world, bad_event,
        Raises (ValidationError (InvalidValue "something"))).
Proof.
  split; [discriminate|]. split; [exact test_logger_get|].
  split; [vm_compute; reflexivity|].
  apply (emit_validation_error test_world test_logger "test/test" 1 bad_event
           None sample_utcnow test_schema (InvalidValue "something")).
  - discriminate.
  - exact test_logger_get.
  - vm_compute. reflexivity.
Defined.

Lemma emit_test_event_witness :
  handlers test_logger <> []
  /\ allowed_policies test_logger = ["all"]
  /\ exists (c : dict) (stamp : string),
       emit test_world test_logger "test/test" 1 test_event None sample_utcnow
       = (info test_world (self_id test_logger) c, test_event,
          Returns (Some c))
       /\ c !! "__timestamp__" = Some (JStr stamp)
       /\ delete "__timestamp__" c = test_capsule.
Proof.
  split; [discriminate|]. split; [reflexivity|].
  apply (emit_test_event test_world test_logger None sample_utcnow).
  - discriminate.
  - reflexivity.
  - reflexivity.
  - exact test_logger_get.
Defined.

Lemma sample_emission :
  emit test_world test_logger "test/test" 1 test_event (Some sample_override)
       sample_utcnow
  = (info test_world 0 sample_capsule, test_event,
     Returns (Some sample_capsule)).
Proof. vm_compute. reflexivity. Qed.

Lemma emit_timestamp_witness :
  registry_ok (schema_registry test_logger)
  /\ sample_capsule !! "__timestamp__"
     = Some (JStr (isoformat sample_override ++ "Z")).
Proof.
  split; [exact test_logger_registry_ok|].
  exact (emit_timestamp test_world (info test_world 0 sample_capsule)
           test_logger "test/test" 1 test_event test_event
           (Some sample_override) sample_utcnow sample_capsule
           test_logger_registry_ok sample_emission).
Defined.

Lemma emit_timestamp_keeps_offset_witness :
  utcoffset sample_override = Some 19800000000%Z
  /\ sample_capsule !! "__timestamp__"
     = Some (JStr (isoformat sample_override ++ "Z"))
  /\ isoformat sample_override ++ "Z" = "2022-03-09T14:05:07.001234+05:30Z".
Proof.
  split; [reflexivity|].
  split; [|vm_compute; reflexivity].
  apply (emit_timestamp_keeps_offset test_world
           (info test_world 0 sample_capsule) test_logger "test/test" 1
           test_event test_event sample_override sample_utcnow
           19800000000 sample_capsule
           test_logger_registry_ok eq_refl sample_emission).
Defined.




(** * Further properties of [emit] *)

(** X1: [emit] returns [None] exactly when its guard fires: the sink list is
    empty or the pair (schema name, version) is not in the registry. *)
Theorem emit_returns_none_iff (w : World) (el : EventLogger)
  (schema_name : string) (version : Z) (event : dict)
  (timestamp_override : option datetime) (utcnow : datetime) :
  (emit w el schema_name version event timestamp_override utcnow).2
  = Returns None
  <-> handlers el = []
      \/ contains (schema_registry el) (schema_name, version) = false.
Proof.
  unfold emit. destruct (handlers el) as [|h hs]; simpl.
  - split; [now left | reflexivity].
  - destruct (contains _ _); simpl.
    + split; [|intros [H|H]; discriminate].
      destruct (get _ _) as [schema|]; [|discriminate].
      destruct (validate schema event); discriminate.
    + split; [now right | reflexivity].
Qed.

Lemma empty_capsule_lookup (t : datetime) (schema_name : string)
  (version : Z) (k : string) :
  empty_capsule t schema_name version !! k
  = if decide (k = "__metadata_version__")
    then Some (JInt EVENTS_METADATA_VERSION)
    else if decide (k = "__schema_version__") then Some (JInt version)
    else if decide (k = "__schema__") then Some (JStr schema_name)
    else if decide (k = "__timestamp__")
         then Some (JStr (isoformat t ++ "Z"))
    else None.
Proof.
  unfold empty_capsule.
  repeat (case_decide;
          [subst k; rewrite ?lookup_insert_ne by discriminate;
           apply lookup_insert_eq
          | rewrite lookup_insert_ne by congruence]).
  apply lookup_empty.
Qed.

(** X2: the identity fields of a returned capsule are the arguments of the
    call and the metadata version, whatever the event holds. *)
Theorem emit_metadata_fields (w w' : World) (el : EventLogger)
  (schema_name : string) (version : Z) (event event' : dict)
  (timestamp_override : option datetime) (utcnow : datetime) (c : dict) :
  registry_ok (schema_registry el) ->
  emit w el schema_name version event timestamp_override utcnow
  = (w', event', Returns (Some c)) ->
  c !! "__schema__" = Some (JStr schema_name)
  /\ c !! "__schema_version__" = Some (JInt version)
  /\ c !! "__metadata_version__" = Some (JInt EVENTS_METADATA_VERSION).
Proof.
  intros Hok H.
  apply emit_returns_capsule in H
    as (schema & _ & Hg & Hv & -> & -> & _).
  assert (Hres : forall k, reserved k = true ->
            enforce_redaction_policies schema
              (reg_allowed_policies (schema_registry el)) event !! k = None).
  { intros k Hk. apply enforce_redaction_policies_None.
    apply (validate_no_reserved schema); [exact (Hok _ _ Hg)| |]; assumption. }
  repeat split;
    (rewrite lookup_union_r by (apply Hres; reflexivity));
    rewrite empty_capsule_lookup; reflexivity.
Qed.

(** X3: [capsule.update(event)]: in a returned capsule every field of the
    (redacted) event has the event's value, also under a key that the
    metadata uses; every other key of the capsule is one of the four
    metadata keys. *)
Theorem emit_event_fields_win (w w' : World) (el : EventLogger)
  (schema_name : string) (version : Z) (event event' : dict)
  (timestamp_override : option datetime) (utcnow : datetime) (c : dict) :
  emit w el schema_name version event timestamp_override utcnow
  = (w', event', Returns (Some c)) ->
  (forall k v, event' !! k = Some v -> c !! k = Some v)
  /\ (forall k, event' !! k = None -> is_Some (c !! k) ->
        k = "__timestamp__" \/ k = "__schema__"
        \/ k = "__schema_version__" \/ k = "__metadata_version__")
  /\ (forall k,
        k = "__timestamp__" \/ k = "__schema__"
        \/ k = "__schema_version__" \/ k = "__metadata_version__" ->
        is_Some (c !! k)).
Proof.
  intros H.
  apply emit_returns_capsule in H as (schema & _ & _ & _ & _ & -> & _).
  split; [|split].
  - intros k v Hk. now apply lookup_union_Some_l.
  - intros k Hk [v Hv]. rewrite lookup_union_r in Hv by assumption.
    rewrite empty_capsule_lookup in Hv.
    repeat case_decide; try discriminate; tauto.
  - intros k Hk. rewrite lookup_union.
    assert (Hm : is_Some (empty_capsule (default utcnow timestamp_override)
                            schema_name version !! k)).
    { rewrite empty_capsule_lookup.
      destruct Hk as [-> | [-> | [-> | ->]]]; simpl; eauto. }
    destruct Hm as [x ->]. destruct (event' !! k); simpl; eauto.
Qed.

(** ** What sinks see *)

Lemma handle_grows (h : Handler) (msg : dict) :
  formatter (handle h msg) = formatter h
  /\ stream h `prefix_of` stream (handle h msg).
Proof.
  unfold handle. destruct (format (formatter h) msg) as [out|]; simpl.
  - split; [reflexivity|]. now exists [out].
  - split; reflexivity.
Qed.

Lemma deliver_grows (msg : dict) (l : list handler_id)
  (objs : gmap handler_id Handler) (h : handler_id) :
  let before := default new_handler (objs !! h) in
  let after := default new_handler (foldl (deliver msg) objs l !! h) in
  formatter after = formatter before
  /\ stream before `prefix_of` stream after.
Proof.
  revert objs. induction l as [|x l IH]; intros objs; simpl.
  - split; reflexivity.
  - destruct (IH (deliver msg objs x)) as [Hf Hp]. simpl in Hf, Hp.
    rewrite Hf. unfold deliver in *.
    destruct (decide (x = h)) as [->|Hne].
    + rewrite lookup_insert_eq in *. simpl in *.
      destruct (handle_grows (default new_handler (objs !! h)) msg)
        as [Hf' Hp'].
      split; [exact Hf'|]. etransitivity; eassumption.
    + rewrite lookup_insert_ne in * by assumption. now split.
Qed.


(** X4: sinks are append-only under [emit]: whatever the call does, every
    handler keeps its formatter and what it had written, the new output
    coming after it; and no logger gains or loses a handler. *)
Theorem emit_appends_only (w : World) (el : EventLogger)
  (schema_name : string) (version : Z) (event : dict)
  (timestamp_override : option datetime) (utcnow : datetime)
  (h : handler_id) :
  let w' :=
    (emit w el schema_name version event timestamp_override utcnow).1.1 in
  formatter (get_handler w' h) = formatter (get_handler w h)
  /\ stream (get_handler w h) `prefix_of` stream (get_handler w' h)
  /\ loggers w' = loggers w.
Proof.
  simpl.
  pose proof (emit_world w el schema_name version event timestamp_override
                utcnow) as Hw. simpl in Hw.
  destruct (emit _ _ _ _ _ _ _).2 as [[c|]|e]; rewrite Hw;
    try (split; [reflexivity | split; reflexivity]).
  unfold get_handler, info. simpl.
  destruct (deliver_grows c (logger_handlers w (self_id el))
              (handler_objects w) h) as [Hf Hp].
  split; [exact Hf | split; [exact Hp | reflexivity]].
Qed.



(** * Further properties of sink management *)

Lemma removeHandler_other_logger (w : World) (name n : nat) (h : handler_id) :
  name <> n ->
  logger_handlers (removeHandler w name h) n = logger_handlers w n.
Proof.
  intros Hne. unfold removeHandler.
  destruct (mem_handler h (logger_handlers w name)); [|reflexivity].
  unfold logger_handlers at 1. simpl. now rewrite lookup_insert_ne.
Qed.

(** X7: the logger of an instance is its own: [add_handler] and
    [remove_handler] on an instance leave the handlers of every logger of
    another name as they are. *)
Theorem handler_changes_stay_local (w : World) (el : EventLogger)
  (h : handler_id) (n : nat) :
  self_id el <> n ->
  logger_handlers (add_handler w el h).1 n = logger_handlers w n
  /\ logger_handlers (remove_handler w el h).1 n = logger_handlers w n.
Proof.
  intros Hne. split.
  - rewrite add_handler_world, addHandler_logger_handlers.
    now rewrite decide_False by assumption.
  - destruct (remove_handler_handlers w el h) as (_ & _ & ->).
    now apply removeHandler_other_logger.
Qed.

Lemma removeHandler_handler_objects (w : World) (name : nat) (h : handler_id) :
  handler_objects (removeHandler w name h) = handler_objects w.
Proof. unfold removeHandler. now destruct (mem_handler _ _). Qed.

Lemma add_handler_stream (w : World) (el : EventLogger) (h x : handler_id) :
  stream (get_handler (add_handler w el h).1 x) = stream (get_handler w x).
Proof.
  rewrite add_handler_world. unfold get_handler.
  rewrite addHandler_handler_objects. unfold setFormatter. simpl.
  destruct (decide (h = x)) as [->|Hne].
  - now rewrite lookup_insert_eq.
  - now rewrite lookup_insert_ne.
Qed.

Lemma add_handler_other_object (w : World) (el : EventLogger)
  (h x : handler_id) :
  x <> h -> get_handler (add_handler w el h).1 x = get_handler w x.
Proof.
  intros Hne. rewrite add_handler_world. unfold get_handler.
  rewrite addHandler_handler_objects. unfold setFormatter. simpl.
  now rewrite lookup_insert_ne by congruence.
Qed.

(** X8: sink management writes nothing: [add_handler(h)] changes no stream
    and no handler but [h], whose formatter it sets; [remove_handler]
    changes no handler object at all, so that a removed handler keeps the
    formatter it was given. *)
Theorem sink_management_writes_nothing (w : World) (el : EventLogger)
  (h x : handler_id) :
  stream (get_handler (add_handler w el h).1 x) = stream (get_handler w x)
  /\ (x <> h -> get_handler (add_handler w el h).1 x = get_handler w x)
  /\ get_handler (remove_handler w el h).1 x = get_handler w x.
Proof.
  split; [|split].
  - apply add_handler_stream.
  - apply add_handler_other_object.
  - destruct (remove_handler_handlers w el h) as (_ & _ & ->).
    unfold get_handler. now rewrite removeHandler_handler_objects.
Qed.

Lemma list_remove_app_self (h : handler_id) (l : list handler_id) :
  h ∉ l -> list_remove h (l ++ [h]) = l.
Proof.
  induction l as [|x l IH]; simpl; intros Hn.
  - now rewrite Nat.eqb_refl.
  - apply not_elem_of_cons in Hn as [Hne Hn].
    destruct (Nat.eqb_spec h x) as [->|_]; [congruence|].
    f_equal. now apply IH.
Qed.

(** X9: adding a handler that is new to the instance and removing it again
    gives back the instance and the handlers of its logger; the handler
    itself keeps the JSON formatter. *)
Theorem remove_add_round_trip (w : World) (el : EventLogger) (h : handler_id) :
  h ∉ handlers el ->
  h ∉ logger_handlers w (self_id el) ->
  let s1 := add_handler w el h in
  let s2 := remove_handler s1.1 s1.2 h in
  s2.2 = el
  /\ logger_handlers s2.1 (self_id el) = logger_handlers w (self_id el)
  /\ formatter (get_handler s2.1 h) = JsonFormatter_skip_message.
Proof.
  intros Hn Hn'. simpl.
  destruct (remove_handler_handlers (add_handler w el h).1
              (add_handler w el h).2 h) as (Hh & Hid & Hw).
  rewrite add_handler_self_id in Hid, Hw.
  apply mem_handler_not_elem_of in Hn as Hm, Hn' as Hm'.
  split; [|split].
  - unfold remove_handler, add_handler. rewrite Hm. simpl.
    rewrite mem_handler_app_self. simpl.
    rewrite list_remove_app_self by assumption. now destruct el.
  - rewrite Hw, removeHandler_logger_handlers.
    rewrite add_handler_world, addHandler_logger_handlers.
    rewrite decide_True by reflexivity.
    change (logger_handlers (setFormatter w h JsonFormatter_skip_message)
              (self_id el)) with (logger_handlers w (self_id el)).
    rewrite Hm'. now apply list_remove_app_self.
  - rewrite Hw. unfold get_handler.
    rewrite removeHandler_handler_objects, add_handler_world,
      addHandler_handler_objects.
    apply setFormatter_formatter.
Qed.

Lemma count_occ_list_remove (h : handler_id) (l : list handler_id) :
  count_occ Nat.eq_dec (list_remove h l) h
  = Nat.pred (count_occ Nat.eq_dec l h).
Proof.
  induction l as [|x l IH]; simpl; [reflexivity|].
  destruct (Nat.eqb_spec h x) as [->|Hne].
  - destruct (Nat.eq_dec x x); [reflexivity | congruence].
  - simpl. destruct (Nat.eq_dec x h); [congruence | exact IH].
Qed.

(** X10: [remove_handler] takes one occurrence from the sink list: a handler
    that the list holds more than once stays in it, though it is off the
    logger.  The instance still counts as configured, and no emission
    reaches that handler any more. *)
Theorem remove_handler_duplicate (w : World) (el : EventLogger)
  (h : handler_id)
  (schema_name : string) (version : Z) (event : dict)
  (timestamp_override : option datetime) (utcnow : datetime) :
  world_ok w ->
  2 <= count_occ Nat.eq_dec (handlers el) h ->
  let s := remove_handler w el h in
  h ∈ handlers s.2
  /\ (h ∉ logger_handlers s.1 (self_id s.2))
  /\ get_handler
       (emit s.1 s.2 schema_name version event timestamp_override utcnow).1.1
       h
     = get_handler w h.
Proof.
  intros Hok Hc. simpl.
  destruct (remove_handler_handlers w el h) as (Hh & Hid & Hw).
  assert (Hn : h ∉ logger_handlers (remove_handler w el h).1
                   (self_id (remove_handler w el h).2)).
  { rewrite Hid, Hw, removeHandler_logger_handlers.
    apply NoDup_list_remove. now apply world_ok_logger_handlers. }
  split; [|split].
  - rewrite Hh. apply list_elem_of_In.
    apply (count_occ_In Nat.eq_dec). rewrite count_occ_list_remove.
    unfold handler_id in *. lia.
  - exact Hn.
  - unfold get_handler. rewrite emit_unattached_lookup by exact Hn.
    now rewrite Hw, removeHandler_handler_objects.
Qed.

(** * Construction and the life of an instance *)

Lemma foldl_add_handler_formatter (l : list handler_id)
  (s : World * EventLogger) (x : handler_id) :
  x ∈ l \/ formatter (get_handler s.1 x) = JsonFormatter_skip_message ->
  formatter
    (get_handler (foldl (fun s handler => add_handler s.1 s.2 handler) s l).1 x)
  = JsonFormatter_skip_message.
Proof.
  revert s. induction l as [|h l IH]; intros s Hx; simpl.
  - destruct Hx as [Hx|Hx]; [now apply elem_of_nil in Hx | exact Hx].
  - apply IH. destruct (decide (x = h)) as [->|Hne].
    + right. simpl. rewrite add_handler_world. unfold get_handler.
      rewrite addHandler_handler_objects. apply setFormatter_formatter.
    + destruct Hx as [Hx|Hx].
      * apply elem_of_cons in Hx as [Hx|Hx]; [congruence | now left].
      * right. simpl. now rewrite add_handler_other_object.
Qed.

Lemma foldl_add_handler_stream (l : list handler_id)
  (s : World * EventLogger) (x : handler_id) :
  stream
    (get_handler (foldl (fun s handler => add_handler s.1 s.2 handler) s l).1 x)
  = stream (get_handler s.1 x).
Proof.
  revert s. induction l as [|h l IH]; intros s; simpl; [reflexivity|].
  rewrite IH. simpl. apply add_handler_stream.
Qed.

Lemma getLogger_get_handler (w : World) (name : nat) (x : handler_id) :
  get_handler (getLogger w name) x = get_handler w x.
Proof. unfold getLogger. now destruct (loggers w !! name). Qed.

(** X11: the constructor: the sink list is the configured list as it stands; the
    logger of the instance's name holds what it held before (nothing, when
    the name is new) and every configured handler; each configured handler
    carries the JSON formatter; and nothing is written to any handler. *)
Theorem EventLogger_init_attaches (w : World) (id : nat)
  (handlers_kw : option (list handler_id))
  (allowed_policies_kw : option (list string)) (x : handler_id) :
  let s := EventLogger_init w id handlers_kw allowed_policies_kw in
  handlers s.2 = default [] handlers_kw
  /\ (x ∈ logger_handlers s.1 id
      <-> x ∈ logger_handlers w id \/ x ∈ default [] handlers_kw)
  /\ (x ∈ default [] handlers_kw ->
      formatter (get_handler s.1 x) = JsonFormatter_skip_message)
  /\ stream (get_handler s.1 x) = stream (get_handler w x).
Proof.
  simpl. split; [apply EventLogger_init_handlers|].
  unfold EventLogger_init. simpl.
  match goal with
  | |- context [foldl ?f ?s ?l] =>
      pose proof (foldl_add_handler_attached l s x) as Ha;
      pose proof (foldl_add_handler_formatter l s x) as Hf;
      pose proof (foldl_add_handler_stream l s x) as Hs
  end.
  simpl in Ha, Hf, Hs. split; [|split].
  - now rewrite Ha, getLogger_logger_handlers.
  - intros Hx. apply Hf. now left.
  - now rewrite Hs, getLogger_get_handler.
Qed.

Lemma add_handler_NoDup (w : World) (el : EventLogger) (h : handler_id) :
  NoDup (handlers el) -> NoDup (handlers (add_handler w el h).2).
Proof.
  intros Hnd. rewrite add_handler_handlers.
  destruct (mem_handler h (handlers el)) eqn:Hm; [assumption|].
  apply NoDup_app. split; [assumption|]. split; [|apply NoDup_singleton].
  intros x Hx Hx'. apply list_elem_of_singleton in Hx'. subst x.
  now apply mem_handler_not_elem_of in Hm.
Qed.

(** X12: the sink bookkeeping stays sound: an instance constructed under a new
    logger name from a list without duplicates has it sound, and
    [add_handler], [remove_handler] and [emit] keep it so. *)
Theorem sinks_invariant_kept :
  (forall (w : World) (id : nat) (hs : list handler_id)
          (allowed_policies_kw : option (list string)),
      world_ok w -> loggers w !! id = None -> NoDup hs ->
      let s := EventLogger_init w id (Some hs) allowed_policies_kw in
      sinks_invariant s.1 s.2)
  /\ (forall (w : World) (el : EventLogger) (h : handler_id),
        sinks_invariant w el ->
        sinks_invariant (add_handler w el h).1 (add_handler w el h).2)
  /\ (forall (w : World) (el : EventLogger) (h : handler_id),
        sinks_invariant w el ->
        sinks_invariant (remove_handler w el h).1 (remove_handler w el h).2)
  /\ (forall (w : World) (el : EventLogger) (schema_name : string)
             (version : Z) (event : dict)
             (timestamp_override : option datetime) (utcnow : datetime),
        sinks_invariant w el ->
        sinks_invariant
          (emit w el schema_name version event timestamp_override utcnow).1.1
          el).
Proof.
  split; [|split; [|split]].
  - intros w id hs pol Hok Hnew Hnd. simpl. split; [|split].
    + now apply EventLogger_init_ok.
    + now rewrite EventLogger_init_handlers.
    + now apply EventLogger_init_in_sync.
  - intros w el h (Hok & Hnd & Hs). split; [|split].
    + now apply add_handler_ok.
    + now apply add_handler_NoDup.
    + now apply add_handler_in_sync.
  - intros w el h (Hok & Hnd & Hs). split; [|split].
    + now apply remove_handler_ok.
    + destruct (remove_handler_handlers w el h) as (-> & _ & _).
      now apply NoDup_list_remove.
    + now apply remove_handler_in_sync.
  - intros w el schema_name version event ts utcnow (Hok & Hnd & Hs).
    split; [|split].
    + now apply emit_ok.
    + assumption.
    + intros x. unfold logger_handlers. rewrite emit_loggers. apply Hs.
Qed.


(** * The further properties on the instances above *)

Lemma emit_returns_none_iff_witness :
  handlers unconfigured_logger = []
  /\ (emit empty_world unconfigured_logger "test/test" 1 test_event None
           sample_utcnow).2
     = Returns None.
Proof.
  split; [reflexivity|].
  apply emit_returns_none_iff. left. reflexivity.
Defined.

Lemma emit_metadata_fields_witness :
  registry_ok (schema_registry test_logger)
  /\ sample_capsule !! "__schema__" = Some (JStr "test/test")
  /\ sample_capsule !! "__schema_version__" = Some (JInt 1)
  /\ sample_capsule !! "__metadata_version__"
     = Some (JInt EVENTS_METADATA_VERSION).
Proof.
  split; [exact test_logger_registry_ok|].
  exact (emit_metadata_fields test_world (info test_world 0 sample_capsule)
           test_logger "test/test" 1%Z test_event test_event
           (Some sample_override) sample_utcnow sample_capsule
           test_logger_registry_ok sample_emission).
Defined.

Lemma emit_event_fields_win_witness :
  test_event !! "something" = Some (JStr "blah")
  /\ sample_capsule !! "something" = Some (JStr "blah").
Proof.
  split; [reflexivity|].
  apply (emit_event_fields_win test_world (info test_world 0 sample_capsule)
           test_logger "test/test" 1%Z test_event test_event
           (Some sample_override) sample_utcnow sample_capsule
           sample_emission).
  reflexivity.
Defined.






Lemma handler_changes_stay_local_witness :
  self_id two_loggers.1.2 <> self_id two_loggers.2
  /\ logger_handlers (add_handler two_loggers.1.1 two_loggers.1.2 9).1
       (self_id two_loggers.2)
     = logger_handlers two_loggers.1.1 (self_id two_loggers.2).
Proof.
  assert (H : self_id two_loggers.1.2 <> self_id two_loggers.2)
    by discriminate.
  split; [exact H|].
  apply (handler_changes_stay_local two_loggers.1.1 two_loggers.1.2 9
           (self_id two_loggers.2) H).
Defined.

Lemma sink_management_writes_nothing_witness :
  4 <> 3
  /\ get_handler (add_handler two_loggers.1.1 two_loggers.1.2 3).1 4
     = get_handler two_loggers.1.1 4.
Proof.
  assert (H : 4 <> 3) by discriminate.
  split; [exact H|].
  destruct (sink_management_writes_nothing two_loggers.1.1 two_loggers.1.2
              3 4) as (_ & Hx & _).
  exact (Hx H).
Defined.

Lemma remove_add_round_trip_witness :
  (9 ∉ handlers test_logger)
  /\ (9 ∉ logger_handlers test_world (self_id test_logger))
  /\ (remove_handler (add_handler test_world test_logger 9).1
        (add_handler test_world test_logger 9).2 9).2
     = test_logger.
Proof.
  assert (H1 : 9 ∉ handlers test_logger).
  { intros H. apply list_elem_of_singleton in H. discriminate. }
  assert (H2 : 9 ∉ logger_handlers test_world (self_id test_logger)).
  { intros H. apply list_elem_of_singleton in H. discriminate. }
  split; [exact H1|]. split; [exact H2|].
  apply (remove_add_round_trip test_world test_logger 9 H1 H2).
Defined.

Lemma duplicate_sinks_ok : world_ok duplicate_sinks.1.
Proof. apply EventLogger_init_ok, empty_world_ok. Qed.

Lemma remove_handler_duplicate_witness :
  world_ok duplicate_sinks.1
  /\ 2 <= count_occ Nat.eq_dec (handlers duplicate_sinks.2) 5
  /\ 5 ∈ handlers (remove_handler duplicate_sinks.1 duplicate_sinks.2 5).2
  /\ (5 ∉ logger_handlers
            (remove_handler duplicate_sinks.1 duplicate_sinks.2 5).1
            (self_id (remove_handler duplicate_sinks.1 duplicate_sinks.2 5).2)).
Proof.
  assert (H : 2 <= count_occ Nat.eq_dec (handlers duplicate_sinks.2) 5).
  { vm_compute. lia. }
  split; [exact duplicate_sinks_ok|]. split; [exact H|].
  pose proof (remove_handler_duplicate duplicate_sinks.1 duplicate_sinks.2 5
                "test/test" 1%Z test_event None sample_utcnow
                duplicate_sinks_ok H) as (H1 & H2 & _).
  split; assumption.
Defined.

Lemma EventLogger_init_attaches_witness :
  3 ∈ default [] (Some [3; 4])
  /\ formatter
       (get_handler (EventLogger_init empty_world 0 (Some [3; 4]) None).1 3)
     = JsonFormatter_skip_message.
Proof.
  assert (H : 3 ∈ default [] (Some [3; 4])).
  { apply elem_of_cons. now left. }
  split; [exact H|].
  apply (EventLogger_init_attaches empty_world 0 (Some [3; 4]) None 3).
  exact H.
Defined.

Lemma sinks_invariant_kept_witness :
  world_ok empty_world
  /\ loggers empty_world !! 0 = None
  /\ NoDup [3; 4]
  /\ sinks_invariant (EventLogger_init empty_world 0 (Some [3; 4]) None).1
       (EventLogger_init empty_world 0 (Some [3; 4]) None).2.
Proof.
  assert (Hnd : NoDup [3; 4]).
  { apply NoDup_cons. split; [|apply NoDup_singleton].
    intros H. apply list_elem_of_singleton in H. discriminate. }
  split; [exact empty_world_ok|]. split; [reflexivity|].
  split; [exact Hnd|].
  destruct sinks_invariant_kept as (Hinit & _).
  exact (Hinit empty_world 0 [3; 4] None empty_world_ok eq_refl Hnd).
Defined.

